(** * NOW/commands/command.py: the command layer and the [who] roster

    A shallow embedding of [src/NOW/commands/command.py]: the base
    [Command] with its four lifecycle hooks, the MUX argument parser that
    [MuxCommand] inherits, and [CmdWho.func].  Everything the module
    imports from the host framework (the session registry, the clock,
    [utils.crop], [utils.time_format], [prettytable], the permission
    check) is a parameter of the development. *)

From Stdlib Require Import List String Ascii Bool Arith ZArith Lia.
From Stdlib Require Import Sorting.Sorted Sorting.Permutation.
From Stdlib Require Import Structures.OrderedTypeEx.
From Stdlib Require Import Numbers.DecimalString.
Import ListNotations.

Local Open Scope string_scope.
Local Open Scope list_scope.

(** ** Python's [sorted(xs, key=f)] on string keys

    [sorted] is stable and ascending; the keys are compared as Python
    compares [str] values, character by character.  [insert_by] puts an
    element in front of the first one whose key is not smaller, so that an
    element keeps its place among those with an equal key. *)

Section Sorted_by_key.
Context {A : Type}.
Variable k : A -> string.

Fixpoint insert_by (x : A) (l : list A) : list A :=
  match l with
  | [] => [x]
  | y :: l' => if (k y <? k x)%string then y :: insert_by x l' else x :: l
  end.

Definition sorted (l : list A) : list A := fold_right insert_by [] l.

Definition key_le (a b : A) : Prop := (k a <=? k b)%string = true.
End Sorted_by_key.

(** ** Data model: what [CmdWho.func] reads from the host's objects *)

Module Player.
(** An account: [o.player.key] orders the roster, [player.name] is shown
    in the privileged view. *)
Record t := mk { key : string; name : string }.
End Player.

Module Location.
Record t := mk { key : string }.
End Location.

Module Puppet.
Record t := mk { key : string; location : Location.t }.
End Puppet.

(** [session.address]: a string, or a tuple whose first element is the host. *)
Inductive Address :=
| AddrStr (host : string)
| AddrTuple (host : string) (port : Z).

(** A value put in a table cell. *)
Inductive Cell :=
| CStr (s : string)
| CInt (n : Z)
| CTuple (host : string) (port : Z).

Record Table := mkTable { field_names : list string; rows : list (list Cell) }.

Definition PrettyTable (fields : list string) : Table :=
  {| field_names := fields; rows := [] |}.

Definition add_row (t : Table) (r : list Cell) : Table :=
  {| field_names := field_names t; rows := rows t ++ [r] |}.

(** ** The host framework, as [command.py] uses it

    [utils.crop], [utils.time_format] and the rendering of a [PrettyTable]
    are the host's; so are the float arithmetic on timestamps and the
    permission check of an account. *)

Class Host := {
  Time : Type;
  time_sub : Time -> Time -> Time;
  time_format : Time -> Z -> string;
  crop : string -> nat -> string;
  table_str : Table -> string;
  check_permstring : Player.t -> string -> bool
}.

(** What the development asks of [utils.crop] at the width the roster uses. *)
Definition crop_bounded `{Host} : Prop :=
  forall s : string, String.length (crop s 25) <= 25.

Definition crop_keeps_short `{Host} : Prop :=
  forall s : string, String.length s <= 25 -> crop s 25 = s.

Module Session.
(** The attributes and method results of a session record that the roster
    reads: [player] is the attribute the sort key goes through,
    [get_player] and [get_puppet] are the results of the two methods.
    The sort reads [o.player.key] of every session of the list and a row
    reads [puppet.location.key] of every puppet, so a session has an
    account and a puppet has a location; a puppet may be missing. *)
Record t `{Host} := mk {
  logged_in : bool;
  conn_time : Time;
  cmd_last_visible : Time;
  cmd_total : Z;
  protocol_key : string;
  address : Address;
  player : Player.t;
  get_player : Player.t;
  get_puppet : option Puppet.t
}.
End Session.

(** ** The world a command runs in, and the monad that threads it

    [SESSIONS] is the registry behind [SESSIONS.get_sessions()] and
    [SESSIONS.player_count()]; [clock] gives the value of the n-th call of
    [time.time()] and [clock_reads] counts the calls made so far; [outbox]
    collects what was sent to the caller with [msg]. *)

Record World `{Host} := mkWorld {
  SESSIONS : list Session.t;
  nplayers_logged_in : nat;
  clock : nat -> Time;
  clock_reads : nat;
  outbox : list string
}.

Definition M `{Host} (A : Type) : Type := World -> A * World.

Definition ret `{Host} {A : Type} (a : A) : M A := fun w => (a, w).

Definition bind `{Host} {A B : Type} (c : M A) (f : A -> M B) : M B :=
  fun w => let (a, w') := c w in f a w'.

Notation "x <- c ;; k" := (bind c (fun x => k))
  (at level 61, c at next level, right associativity).
Notation "c ;;; k" := (bind c (fun _ => k))
  (at level 61, right associativity).

Definition get_sessions `{Host} : M (list Session.t) := fun w => (SESSIONS w, w).

Definition player_count `{Host} : M nat := fun w => (nplayers_logged_in w, w).

Definition time_time `{Host} : M Time :=
  fun w => (clock w (clock_reads w),
            {| SESSIONS := SESSIONS w;
               nplayers_logged_in := nplayers_logged_in w;
               clock := clock w;
               clock_reads := S (clock_reads w);
               outbox := outbox w |}).

Definition msg `{Host} (text : string) : M unit :=
  fun w => (tt,
            {| SESSIONS := SESSIONS w;
               nplayers_logged_in := nplayers_logged_in w;
               clock := clock w;
               clock_reads := clock_reads w;
               outbox := outbox w ++ [text] |}).

(** [for x in l: acc = body(acc, x)] *)
Fixpoint for_each `{Host} {A S : Type} (l : list A) (body : S -> A -> M S) (acc : S) : M S :=
  match l with
  | [] => ret acc
  | x :: l' => acc' <- body acc x ;; for_each l' body acc'
  end.

(** ** Python values a hook may return, and their truth value *)

Inductive PyVal := PyNone | PyBool (b : bool).

Definition is_bool (v : PyVal) : bool :=
  match v with PyBool _ => true | PyNone => false end.

Definition truthy (v : PyVal) : bool :=
  match v with PyBool b => b | PyNone => false end.

(** ** [class Command(BaseCommand)] *)

(** The four hooks a command type implements. *)
Record Hooks `{Host} := mkHooks {
  h_at_pre_cmd : M PyVal;
  h_parse : M unit;
  h_func : M unit;
  h_at_post_cmd : M unit
}.

Module Command.
Definition key : string := "MyCommand".
Definition aliases : list string := [].
Definition locks : string := "cmd:all()".
Definition help_category : string := "General".

(** [pass]: the hook returns [None]. *)
Definition at_pre_cmd `{Host} : M PyVal := ret PyNone.

Definition parse `{Host} : M unit := ret tt.

Definition func `{Host} : M unit := msg "Command called!".

Definition at_post_cmd `{Host} : M unit := ret tt.

Definition hooks `{Host} : Hooks :=
  {| h_at_pre_cmd := at_pre_cmd;
     h_parse := parse;
     h_func := func;
     h_at_post_cmd := at_post_cmd |}.
End Command.

Inductive Hook := AtPreCmd | Parse | Func | AtPostCmd.

(** Modelled from the spec: the dispatcher that drives a command through
    its hooks is the host's command handler and is not part of
    [command.py]; the class docstring and section 4.1 of the
    specification give its contract: the pre-hook runs first and a true
    result aborts the command, then [parse], [func] and [at_post_cmd] run
    in that order.  The result is the list of the hooks that ran. *)
Definition run_command `{Host} (c : Hooks) : M (list Hook) :=
  r <- h_at_pre_cmd c ;;
  if truthy r then ret [AtPreCmd]
  else
    h_parse c ;;;
    h_func c ;;;
    h_at_post_cmd c ;;;
    ret [AtPreCmd; Parse; Func; AtPostCmd].

(** ** [class CmdWho(MuxPlayerCommand)] *)

Definition nl : string := String (ascii_of_nat 10) EmptyString.

(** [str(n)] of a count. *)
Definition str_of_nat (n : nat) : string :=
  NilEmpty.string_of_uint (Nat.to_uint n).

(** [isinstance(address, tuple) and address[0] or address] *)
Definition host_of (a : Address) : Cell :=
  match a with
  | AddrTuple host port => if (host =? "")%string then CTuple host port else CStr host
  | AddrStr host => CStr host
  end.

Module CmdWho.
Definition key : string := "who".
Definition locks : string := "cmd:all()".

(** The command instance: [self.player] and the parsed [self.switches]. *)
Record self := mk { player : Player.t; switches : list string }.

(** ['f' in self.switches] *)
Definition f_in_switches (s : self) : bool :=
  existsb (String.eqb "f") (switches s).

Definition show_session_data `{Host} (s : self) : bool :=
  if f_in_switches s
  then check_permstring (player s) "Immortals" || check_permstring (player s) "Wizards"
  else false.

(** Lines 179-233: the table of the view that the switch and the
    permission select. *)
Definition who_table `{Host} (s : self) (session_list : list Session.t) : M Table :=
  if f_in_switches s then
    if show_session_data s then
      for_each session_list
        (fun table session =>
           if negb (Session.logged_in session) then ret table
           else
             now1 <- time_time ;;
             let delta_cmd := time_sub now1 (Session.cmd_last_visible session) in
             now2 <- time_time ;;
             let delta_conn := time_sub now2 (Session.conn_time session) in
             let player := Session.get_player session in
             let puppet := Session.get_puppet session in
             let location :=
               match puppet with
               | Some p => Location.key (Puppet.location p)
               | None => "None"
               end in
             ret (add_row table
                    [CStr (crop (Player.name player) 25);
                     CStr (time_format delta_conn 0);
                     CStr (time_format delta_cmd 1);
                     CStr (crop (match puppet with
                                 | Some p => Puppet.key p
                                 | None => "None"
                                 end) 25);
                     CStr (crop location 25);
                     CInt (Session.cmd_total session);
                     CStr (Session.protocol_key session);
                     host_of (Session.address session)]))
        (PrettyTable ["{wPlayer Name"; "{wOn for"; "{wIdle"; "{wCharacter";
                      "{wRoom"; "{wCmds"; "{wProtocol"; "{wHost"])
    else
      for_each session_list
        (fun table session =>
           if negb (Session.logged_in session) then ret table
           else
             now1 <- time_time ;;
             let delta_cmd := time_sub now1 (Session.cmd_last_visible session) in
             now2 <- time_time ;;
             let delta_conn := time_sub now2 (Session.conn_time session) in
             let puppet := Session.get_puppet session in
             let location :=
               match puppet with
               | Some p => Location.key (Puppet.location p)
               | None => "None"
               end in
             ret (add_row table
                    [CStr (crop (match puppet with
                                 | Some p => Puppet.key p
                                 | None => "- Unknown -"
                                 end) 25);
                     CStr (time_format delta_conn 0);
                     CStr (time_format delta_cmd 1);
                     CStr (crop location 25)]))
        (PrettyTable ["{wCharacter"; "{wOn for"; "{wIdle"; "{wLocation"])
  else
    for_each session_list
      (fun table session =>
         if negb (Session.logged_in session) then ret table
         else
           now1 <- time_time ;;
           let delta_cmd := time_sub now1 (Session.cmd_last_visible session) in
           now2 <- time_time ;;
           let delta_conn := time_sub now2 (Session.conn_time session) in
           let puppet := Session.get_puppet session in
           ret (add_row table
                  [CStr (crop (match puppet with
                               | Some p => Puppet.key p
                               | None => "- Unknown -"
                               end) 25);
                   CStr (time_format delta_conn 0);
                   CStr (time_format delta_cmd 1)]))
      (PrettyTable ["{wCharacter"; "{wOn for"; "{wIdle"]).

(** Lines 235-236: the text of the report. *)
Definition report `{Host} (table : Table) (nplayers : nat) : string :=
  let isone := (nplayers =? 1)%nat in
  ("{wPlayers:{n" ++ nl ++ table_str table ++ nl
     ++ (if isone then "One" else str_of_nat nplayers)
     ++ " unique account" ++ (if isone then "" else "s") ++ " logged in.")%string.

Definition func `{Host} (s : self) : M unit :=
  session_list <- get_sessions ;;
  let session_list := sorted (fun o => Player.key (Session.player o)) session_list in
  nplayers <- player_count ;;
  table <- who_table s session_list ;;
  msg (report table nplayers).
End CmdWho.

(** ** [class MuxCommand(default_cmds.MuxCommand)]: the argument parser *)

Module MuxCommand.
(** What the parser stores on the command. *)
Record parsed := mk {
  raw : string;
  switches : list string;
  args : string;
  lhs : string;
  rhs : option string;
  lhslist : list string;
  rhslist : list string;
  arglist : list string
}.

Definition is_space (c : ascii) : bool :=
  let n := nat_of_ascii c in
  ((9 <=? n)%nat && (n <=? 13)%nat) || (n =? 32)%nat.

Definition is_slash (c : ascii) : bool := (c =? "/")%char.

Definition lower (c : ascii) : ascii :=
  let n := nat_of_ascii c in
  if ((65 <=? n)%nat && (n <=? 90)%nat) then ascii_of_nat (n + 32) else c.

Fixpoint lstrip (s : string) : string :=
  match s with
  | EmptyString => EmptyString
  | String c s' => if is_space c then lstrip s' else s
  end.

Fixpoint rstrip (s : string) : string :=
  match s with
  | EmptyString => EmptyString
  | String c s' =>
      match rstrip s' with
      | EmptyString => if is_space c then EmptyString else String c EmptyString
      | r => String c r
      end
  end.

Definition strip (s : string) : string := rstrip (lstrip s).

(** [contains c s]: the character occurs in the string. *)
Fixpoint contains (c : ascii) (s : string) : bool :=
  match s with
  | EmptyString => false
  | String d s' => (d =? c)%char || contains c s'
  end.

(** Split at the first occurrence of [d], if there is one. *)
Fixpoint partition_at (d : ascii) (s : string) : option (string * string) :=
  match s with
  | EmptyString => None
  | String c s' =>
      if (c =? d)%char then Some (EmptyString, s')
      else match partition_at d s' with
           | Some (l, r) => Some (String c l, r)
           | None => None
           end
  end.

(** Split at every occurrence of [d]; an empty string gives one empty
    segment. *)
Fixpoint split_on (d : ascii) (s : string) : list string :=
  match s with
  | EmptyString => [EmptyString]
  | String c s' =>
      if (c =? d)%char then EmptyString :: split_on d s'
      else match split_on d s' with
           | h :: t => String c h :: t
           | [] => [String c EmptyString]
           end
  end.

Definition comma_list (s : string) : list string := map strip (split_on "," s).

(** The tokens between runs of whitespace; [cur] is the token being read. *)
Fixpoint words (cur : option string) (s : string) : list string :=
  match s with
  | EmptyString => match cur with Some t => [t] | None => [] end
  | String c s' =>
      if is_space c
      then match cur with Some t => t :: words None s' | None => words None s' end
      else words (Some (match cur with
                        | Some t => (t ++ String c EmptyString)%string
                        | None => String c EmptyString
                        end)) s'
  end.

(** Modelled from the spec: step 1 of section 4.2, "identify and strip
    all /switch tokens occurring before any non-switch content; collect
    into an ordered sequence of lowercase-normalized switch names
    (without the leading slash)"; the parser itself is the host's
    [default_cmds.MuxCommand.parse] and is not part of [command.py].
    A switch token is a slash followed by the characters up to the next
    slash or whitespace; [cur] is the name being read, if any.  The
    result is the switch names and the text left over. *)
Fixpoint strip_switches (cur : option string) (s : string) : list string * string :=
  match s with
  | EmptyString => (match cur with Some n => [n] | None => [] end, EmptyString)
  | String c s' =>
      match cur with
      | None =>
          if is_space c then strip_switches None s'
          else if is_slash c then strip_switches (Some EmptyString) s'
          else ([], s)
      | Some n =>
          if is_slash c then
            let (sw, rest) := strip_switches (Some EmptyString) s' in (n :: sw, rest)
          else if is_space c then
            let (sw, rest) := strip_switches None s' in (n :: sw, rest)
          else strip_switches (Some (n ++ String (lower c) EmptyString)%string) s'
      end
  end.

(** The text left over by the switch scanner is empty or starts with a
    character that is neither whitespace nor a slash. *)
Definition starts_with_content (s : string) : Prop :=
  s = EmptyString
  \/ exists (c : ascii) (r : string),
       s = String c r /\ is_space c = false /\ is_slash c = false.

(** Modelled from the spec: steps 2 to 6 of section 4.2 and the class
    docstring of [MuxCommand]; the parser is inherited from the host's
    [default_cmds.MuxCommand], which is not part of [command.py].  The
    left-over text is trimmed into [args]; [args] is split at the first
    [=] into the trimmed [lhs] and [rhs], or [lhs] is [args] and [rhs] is
    absent; the lists are the trimmed comma-separated segments, and
    [rhslist] is empty when [rhs] is absent. *)
Definition parse (raw : string) : parsed :=
  let (switches, rest) := strip_switches None raw in
  let args := strip rest in
  match partition_at "=" args with
  | Some (l, r) =>
      {| raw := raw; switches := switches; args := args;
         lhs := strip l; rhs := Some (strip r);
         lhslist := comma_list (strip l); rhslist := comma_list (strip r);
         arglist := words None args |}
  | None =>
      {| raw := raw; switches := switches; args := args;
         lhs := args; rhs := None;
         lhslist := comma_list args; rhslist := [];
         arglist := words None args |}
  end.
End MuxCommand.

(** ** A concrete host, to run the definitions on examples

    Timestamps are whole seconds; [crop] keeps a text that fits and cuts a
    longer one, marking the cut; a table is printed cell by cell. *)

Module Demo.
Definition crop (text : string) (width : nat) : string :=
  if (String.length text <=? width)%nat then text
  else (String.substring 0 (width - 5) text ++ "[...]")%string.

Definition str_of_Z (z : Z) : string := NilZero.string_of_int (Z.to_int z).

Definition time_format (seconds : Z) (style : Z) : string :=
  (str_of_Z seconds ++ (if (style =? 0)%Z then "s" else " sec"))%string.

Definition cell_str (c : Cell) : string :=
  match c with
  | CStr s => s
  | CInt n => str_of_Z n
  | CTuple host port => ("(" ++ host ++ ", " ++ str_of_Z port ++ ")")%string
  end.

Definition line (cells : list string) : string := String.concat " | " cells.

Definition table_str (t : Table) : string :=
  String.concat nl (line (field_names t) :: map (fun r => line (map cell_str r)) (rows t)).

(** The account [admin] holds the permission [Immortals]. *)
Definition check_permstring (p : Player.t) (perm : string) : bool :=
  (Player.key p =? "admin")%string && (perm =? "Immortals")%string.

#[global] Instance host : Host :=
  Build_Host Z Z.sub time_format crop table_str check_permstring.

Definition amy : Player.t := Player.mk "Amy" "Amy".
Definition bob : Player.t := Player.mk "Bob" "Bob".
Definition zed : Player.t := Player.mk "Zed" "Zed".
Definition admin : Player.t := Player.mk "admin" "admin".

Definition hall : Location.t := Location.mk "Great Hall".
Definition knight : Puppet.t := Puppet.mk "Sir Amy" hall.

Definition session (p : Player.t) (on : bool) (pup : option Puppet.t) : Session.t :=
  {| Session.logged_in := on;
     Session.conn_time := 100%Z;
     Session.cmd_last_visible := 900%Z;
     Session.cmd_total := 7%Z;
     Session.protocol_key := "telnet";
     Session.address := AddrTuple "10.0.0.1" 4000%Z;
     Session.player := p;
     Session.get_player := p;
     Session.get_puppet := pup |}.

(** Three sessions logged in, out of key order, and one that is not. *)
Definition world : World :=
  {| SESSIONS := [session bob true None; session amy true (Some knight);
                  session admin false None; session zed true None];
     nplayers_logged_in := 3;
     clock := fun n => (1000 + Z.of_nat n)%Z;
     clock_reads := 0;
     outbox := [] |}.

(** The same sessions under other account names, protocols and
    addresses; the account keys are those of [world]. *)
Definition session' (p : Player.t) (on : bool) (pup : option Puppet.t) : Session.t :=
  {| Session.logged_in := on;
     Session.conn_time := 100%Z;
     Session.cmd_last_visible := 900%Z;
     Session.cmd_total := 4096%Z;
     Session.protocol_key := "websocket";
     Session.address := AddrStr "192.168.7.7";
     Session.player := Player.mk (Player.key p) "Somebody";
     Session.get_player := Player.mk "Nobody" "Somebody else";
     Session.get_puppet := pup |}.


(** The sessions of [world], the account of the second one under the key
    [Zoe]. *)
Definition rekeyed : World :=
  {| SESSIONS := [session bob true None;
                  session (Player.mk "Zoe" "Amy") true (Some knight);
                  session admin false None; session zed true None];
     nplayers_logged_in := 3;
     clock := fun n => (1000 + Z.of_nat n)%Z;
     clock_reads := 0;
     outbox := [] |}.

Definition who : CmdWho.self := CmdWho.mk bob [].
Definition who_f : CmdWho.self := CmdWho.mk bob ["f"].
Definition who_f_admin : CmdWho.self := CmdWho.mk admin ["f"].
End Demo.

(** ** The rows of the three views, and what a view keeps of a session

    The three loops of [CmdWho.func] differ only by the row they add: the
    row is a function of the session and of the two clock readings taken
    for it. *)

Section Roster.
Context `{Host}.

Definition account_key (o : Session.t) : string := Player.key (Session.player o).

Definition puppet_location (puppet : option Puppet.t) : string :=
  match puppet with
  | Some p => Location.key (Puppet.location p)
  | None => "None"
  end.

Definition puppet_key_or (placeholder : string) (puppet : option Puppet.t) : string :=
  match puppet with
  | Some p => Puppet.key p
  | None => placeholder
  end.

Definition full_row (session : Session.t) (now1 now2 : Time) : list Cell :=
  [CStr (crop (Player.name (Session.get_player session)) 25);
   CStr (time_format (time_sub now2 (Session.conn_time session)) 0);
   CStr (time_format (time_sub now1 (Session.cmd_last_visible session)) 1);
   CStr (crop (puppet_key_or "None" (Session.get_puppet session)) 25);
   CStr (crop (puppet_location (Session.get_puppet session)) 25);
   CInt (Session.cmd_total session);
   CStr (Session.protocol_key session);
   host_of (Session.address session)].

Definition moderate_row (session : Session.t) (now1 now2 : Time) : list Cell :=
  [CStr (crop (puppet_key_or "- Unknown -" (Session.get_puppet session)) 25);
   CStr (time_format (time_sub now2 (Session.conn_time session)) 0);
   CStr (time_format (time_sub now1 (Session.cmd_last_visible session)) 1);
   CStr (crop (puppet_location (Session.get_puppet session)) 25)].

Definition minimal_row (session : Session.t) (now1 now2 : Time) : list Cell :=
  [CStr (crop (puppet_key_or "- Unknown -" (Session.get_puppet session)) 25);
   CStr (time_format (time_sub now2 (Session.conn_time session)) 0);
   CStr (time_format (time_sub now1 (Session.cmd_last_visible session)) 1)].

Definition view_row (s : CmdWho.self) : Session.t -> Time -> Time -> list Cell :=
  if CmdWho.f_in_switches s then
    if CmdWho.show_session_data s then full_row else moderate_row
  else minimal_row.

Definition view_fields (s : CmdWho.self) : list string :=
  if CmdWho.f_in_switches s then
    if CmdWho.show_session_data s
    then ["{wPlayer Name"; "{wOn for"; "{wIdle"; "{wCharacter";
          "{wRoom"; "{wCmds"; "{wProtocol"; "{wHost"]
    else ["{wCharacter"; "{wOn for"; "{wIdle"; "{wLocation"]
  else ["{wCharacter"; "{wOn for"; "{wIdle"].

(** One pass of a loop of [CmdWho.func], for the row [mk]. *)
Definition loop_body (mk : Session.t -> Time -> Time -> list Cell)
    (table : Table) (session : Session.t) : M Table :=
  if negb (Session.logged_in session) then ret table
  else
    now1 <- time_time ;;
    now2 <- time_time ;;
    ret (add_row table (mk session now1 now2)).

(** The rows of the sessions [l], the first clock reading being the
    [n]-th. *)
Fixpoint roster (mk : Session.t -> Time -> Time -> list Cell)
    (l : list Session.t) (clk : nat -> Time) (n : nat) : list (list Cell) :=
  match l with
  | [] => []
  | session :: l' => mk session (clk n) (clk (S n)) :: roster mk l' clk (S (S n))
  end.

(** The sessions the roster shows, in the order it shows them. *)
Definition shown (w : World) : list Session.t :=
  filter Session.logged_in (sorted account_key (SESSIONS w)).

(** The table [CmdWho.func] builds in the world [w]. *)
Definition table_of (s : CmdWho.self) (w : World) : Table :=
  fst (CmdWho.who_table s (sorted account_key (SESSIONS w)) w).


(** What a computation may do to the world: read the clock [k] times. *)
Definition reads_clock (k : nat) (w w' : World) : Prop :=
  SESSIONS w' = SESSIONS w
  /\ nplayers_logged_in w' = nplayers_logged_in w
  /\ clock w' = clock w
  /\ clock_reads w' = clock_reads w + k
  /\ outbox w' = outbox w.

(** The reading of "a missing puppet's location displays None" that
    holds of a table: the row of a session without a puppet has a cell
    that shows [None]. *)
Definition puppetless_show_None (s : CmdWho.self) (w : World) : Prop :=
  Forall2 (fun session row =>
             Session.get_puppet session = None -> In (CStr "None") row)
    (shown w) (rows (table_of s w)).

(** The last line of a report for [n] accounts. *)
Definition summary_line (n : nat) : string :=
  if (n =? 1)%nat then "One unique account logged in."
  else (str_of_nat n ++ " unique accounts logged in.")%string.
End Roster.

(** ** What the minimal view keeps of a session, and more example worlds *)

Section Minimal_view.
Context `{Host}.

(** Two sessions that agree on what a row of the minimal view is made
    from: the login flag, the two timestamps, the account key and the key
    of the puppet, if there is one.  The puppet's location is free. *)
Definition same_minimal (s1 s2 : Session.t) : Prop :=
  Session.logged_in s1 = Session.logged_in s2
  /\ Session.conn_time s1 = Session.conn_time s2
  /\ Session.cmd_last_visible s1 = Session.cmd_last_visible s2
  /\ account_key s1 = account_key s2
  /\ option_map Puppet.key (Session.get_puppet s1)
     = option_map Puppet.key (Session.get_puppet s2).

(** The cell that the [who/f] view of an unprivileged caller has after
    the cells of the minimal view. *)
Definition location_cell (session : Session.t) : Cell :=
  CStr (crop (puppet_location (Session.get_puppet session)) 25).
End Minimal_view.

Module Scenes.
(** Nobody is logged in. *)
Definition lobby : World :=
  {| SESSIONS := [Demo.session Demo.amy false (Some Demo.knight);
                  Demo.session Demo.bob false None];
     nplayers_logged_in := 0;
     clock := fun n => (1000 + Z.of_nat n)%Z;
     clock_reads := 0;
     outbox := [] |}.

(** The sessions of [Demo.world'], the knight standing somewhere else. *)
Definition moved : World :=
  {| SESSIONS := [Demo.session' Demo.bob true None;
                  Demo.session' Demo.amy true
                    (Some (Puppet.mk "Sir Amy" (Location.mk "Dungeon")));
                  Demo.session' Demo.admin false None;
                  Demo.session' Demo.zed true None];
     nplayers_logged_in := 3;
     clock := fun n => (1000 + Z.of_nat n)%Z;
     clock_reads := 0;
     outbox := [] |}.

(** The sessions of [Demo.world], the registry giving them in another
    order. *)
Definition shuffled : World :=
  {| SESSIONS := [Demo.session Demo.amy true (Some Demo.knight);
                  Demo.session Demo.bob true None;
                  Demo.session Demo.admin false None;
                  Demo.session Demo.zed true None];
     nplayers_logged_in := 3;
     clock := fun n => (1000 + Z.of_nat n)%Z;
     clock_reads := 0;
     outbox := [] |}.

(** The sessions of [Demo.world] that are logged in, and no other. *)
Definition online_only : World :=
  {| SESSIONS := [Demo.session Demo.bob true None;
                  Demo.session Demo.amy true (Some Demo.knight);
                  Demo.session Demo.zed true None];
     nplayers_logged_in := 3;
     clock := fun n => (1000 + Z.of_nat n)%Z;
     clock_reads := 0;
     outbox := [] |}.

Definition who_wizard : CmdWho.self := CmdWho.mk Demo.admin ["x"].
End Scenes.

(** ** Session lists that differ in the hidden fields as the roster names them

    The host gives an account one name: its key is what is displayed.  Two
    sessions then differ only in the account, the protocol and the address
    when they agree on everything else a row reads. *)

Section Hidden_fields.
Context `{Host}.

End Hidden_fields.

Module Renamed.
(** An account whose key and name are both [Zoe]. *)
Definition zoe : Player.t := Player.mk "Zoe" "Zoe".

(** The sessions of [Demo.world], the second one owned by [zoe] instead of
    [Demo.amy]: the same puppets, timestamps, counts, protocols and
    addresses. *)
Definition world : World :=
  {| SESSIONS := [Demo.session Demo.bob true None;
                  Demo.session zoe true (Some Demo.knight);
                  Demo.session Demo.admin false None;
                  Demo.session Demo.zed true None];
     nplayers_logged_in := 3;
     clock := fun n => (1000 + Z.of_nat n)%Z;
     clock_reads := 0;
     outbox := [] |}.
End Renamed.

(** ** Order lemmas for the keys *)

Lemma leb_refl (s : string) : (s <=? s)%string = true.
Proof. destruct (String.leb_total s s); assumption. Qed.

Lemma ltb_false_leb (a b : string) :
  (a <? b)%string = false -> (b <=? a)%string = true.
Proof.
  unfold String.ltb, String.leb. rewrite (String.compare_antisym b a).
  destruct (String.compare a b); simpl; congruence.
Qed.

Lemma ltb_true_leb (a b : string) :
  (a <? b)%string = true -> (a <=? b)%string = true.
Proof.
  unfold String.ltb, String.leb.
  destruct (String.compare a b); simpl; congruence.
Qed.

Lemma ltb_irrefl (s : string) : (s <? s)%string = false.
Proof.
  unfold String.ltb. pose proof (String.compare_antisym s s) as Hs.
  destruct (String.compare s s); cbn in Hs; congruence.
Qed.

Lemma leb_cases (a b : string) :
  (a <=? b)%string = true -> a = b \/ String_as_OT.lt a b.
Proof.
  unfold String.leb. destruct (String.compare a b) eqn:E; try discriminate.
  - left. now apply String.compare_eq_iff.
  - right. now apply String_as_OT.cmp_lt.
Qed.

Lemma lt_leb (a b : string) : String_as_OT.lt a b -> (a <=? b)%string = true.
Proof.
  intros H. apply String_as_OT.cmp_lt in H. unfold String_as_OT.cmp in H.
  unfold String.leb. now rewrite H.
Qed.

Lemma leb_trans (a b c : string) :
  (a <=? b)%string = true -> (b <=? c)%string = true -> (a <=? c)%string = true.
Proof.
  intros Hab Hbc.
  destruct (leb_cases _ _ Hab) as [-> | Hlt1]; [assumption |].
  destruct (leb_cases _ _ Hbc) as [<- | Hlt2]; [assumption |].
  apply lt_leb. eapply String_as_OT.lt_trans; eassumption.
Qed.

Section Sorted_by_key_facts.
Context {A : Type}.
Variable k : A -> string.

Lemma key_le_trans (a b c : A) : key_le k a b -> key_le k b c -> key_le k a c.
Proof. unfold key_le. apply leb_trans. Qed.

Lemma insert_by_perm (x : A) (l : list A) : Permutation (x :: l) (insert_by k x l).
Proof.
  induction l as [| y l IH]; simpl.
  - reflexivity.
  - destruct (k y <? k x)%string.
    + rewrite perm_swap. now constructor.
    + reflexivity.
Qed.

Lemma sorted_perm (l : list A) : Permutation l (sorted k l).
Proof.
  induction l as [| x l IH]; simpl.
  - constructor.
  - rewrite <- insert_by_perm. now constructor.
Qed.

Lemma insert_by_hd (a x : A) (l : list A) :
  key_le k a x -> HdRel (key_le k) a l -> HdRel (key_le k) a (insert_by k x l).
Proof.
  intros Hax Hl. destruct l as [| y l]; simpl.
  - now constructor.
  - destruct (k y <? k x)%string; constructor; [now inversion Hl | assumption].
Qed.

Lemma insert_by_Sorted (x : A) (l : list A) :
  Sorted (key_le k) l -> Sorted (key_le k) (insert_by k x l).
Proof.
  induction l as [| y l IH]; intros Hs; simpl.
  - repeat constructor.
  - destruct (k y <? k x)%string eqn:E.
    + inversion Hs; subst. constructor.
      * now apply IH.
      * apply insert_by_hd; [now apply ltb_true_leb | assumption].
    + constructor; [assumption |]. constructor. now apply ltb_false_leb.
Qed.

Lemma sorted_Sorted (l : list A) : Sorted (key_le k) (sorted k l).
Proof.
  induction l as [| x l IH]; simpl; [constructor | now apply insert_by_Sorted].
Qed.

Lemma sorted_StronglySorted (l : list A) : StronglySorted (key_le k) (sorted k l).
Proof.
  apply Sorted_StronglySorted; [| apply sorted_Sorted].
  intros a b c. apply key_le_trans.
Qed.

(** [sorted] is stable: the elements with a given key keep their order. *)
Lemma insert_by_same_key (v : string) (x : A) (l : list A) :
  filter (fun y => (k y =? v)%string) (insert_by k x l)
  = if (k x =? v)%string
    then x :: filter (fun y => (k y =? v)%string) l
    else filter (fun y => (k y =? v)%string) l.
Proof.
  induction l as [| y l IH]; cbn.
  - reflexivity.
  - destruct (k y <? k x)%string eqn:E; cbn; [| reflexivity].
    rewrite IH.
    destruct (String.eqb_spec (k y) v) as [Hy |], (String.eqb_spec (k x) v) as [Hx |];
      try reflexivity.
    rewrite Hy, Hx, ltb_irrefl in E. discriminate.
Qed.

Lemma sorted_stable (v : string) (l : list A) :
  filter (fun y => (k y =? v)%string) (sorted k l)
  = filter (fun y => (k y =? v)%string) l.
Proof.
  unfold sorted. induction l as [| x l IH]; cbn [fold_right filter]; [reflexivity |].
  rewrite insert_by_same_key, IH. reflexivity.
Qed.

Lemma filter_StronglySorted (p : A -> bool) (l : list A) :
  StronglySorted (key_le k) l -> StronglySorted (key_le k) (filter p l).
Proof.
  induction 1 as [| x l Hs IH Hall]; simpl; [constructor |].
  destruct (p x); [| assumption].
  constructor; [assumption |].
  rewrite Forall_forall in *. intros y Hy. apply Hall.
  apply filter_In in Hy. tauto.
Qed.

Lemma filter_perm (p : A -> bool) (l l' : list A) :
  Permutation l l' -> Permutation (filter p l) (filter p l').
Proof.
  induction 1; simpl.
  - constructor.
  - destruct (p x); [now constructor | assumption].
  - destruct (p x), (p y); try reflexivity. apply perm_swap.
  - etransitivity; eassumption.
Qed.
End Sorted_by_key_facts.

(** ** The loops of [CmdWho.func] *)

Section Loop_facts.
Context `{Host}.

Lemma for_each_cons {A S : Type} (x : A) (l : list A) (body : S -> A -> M S)
    (acc : S) (w : World) :
  for_each (x :: l) body acc w
  = for_each l body (fst (body acc x w)) (snd (body acc x w)).
Proof. cbn. unfold bind. now destruct (body acc x w). Qed.

Lemma loop_body_skip mk table session w :
  Session.logged_in session = false -> loop_body mk table session w = (table, w).
Proof. intros Hin. unfold loop_body. now rewrite Hin. Qed.

Lemma loop_body_row mk table session w :
  Session.logged_in session = true ->
  loop_body mk table session w
  = (add_row table (mk session (clock w (clock_reads w)) (clock w (S (clock_reads w)))),
     {| SESSIONS := SESSIONS w;
        nplayers_logged_in := nplayers_logged_in w;
        clock := clock w;
        clock_reads := S (S (clock_reads w));
        outbox := outbox w |}).
Proof. intros Hin. unfold loop_body. now rewrite Hin. Qed.

Lemma for_each_loop_body mk (l : list Session.t) :
  forall (table : Table) (w : World),
    field_names (fst (for_each l (loop_body mk) table w)) = field_names table
    /\ rows (fst (for_each l (loop_body mk) table w))
       = rows table ++ roster mk (filter Session.logged_in l) (clock w) (clock_reads w)
    /\ reads_clock (2 * List.length (filter Session.logged_in l)) w
         (snd (for_each l (loop_body mk) table w)).
Proof.
  induction l as [| session l IH]; intros table w.
  - cbn. rewrite app_nil_r. unfold reads_clock. repeat split; lia.
  - rewrite for_each_cons. cbn [filter].
    destruct (Session.logged_in session) eqn:Hin.
    + rewrite loop_body_row by assumption. cbn [fst snd].
      destruct (IH (add_row table (mk session (clock w (clock_reads w))
                                     (clock w (S (clock_reads w)))))
                  {| SESSIONS := SESSIONS w;
                     nplayers_logged_in := nplayers_logged_in w;
                     clock := clock w;
                     clock_reads := S (S (clock_reads w));
                     outbox := outbox w |}) as (Hf & Hr & Hw).
      rewrite Hf, Hr. cbn [add_row field_names rows clock clock_reads roster].
      split; [reflexivity |]. split.
      * rewrite <- app_assoc. reflexivity.
      * destruct Hw as (H1 & H2 & H3 & H4 & H5). unfold reads_clock.
        rewrite H1, H2, H3, H4, H5. cbn. repeat split; lia.
    + rewrite loop_body_skip by assumption. cbn [fst snd]. apply IH.
Qed.

Lemma who_table_loop (s : CmdWho.self) (l : list Session.t) :
  CmdWho.who_table s l = for_each l (loop_body (view_row s)) (PrettyTable (view_fields s)).
Proof.
  unfold CmdWho.who_table, view_row, view_fields.
  destruct (CmdWho.f_in_switches s); [destruct (CmdWho.show_session_data s) |];
    reflexivity.
Qed.

Lemma who_table_rows (s : CmdWho.self) (w : World) :
  field_names (table_of s w) = view_fields s
  /\ rows (table_of s w) = roster (view_row s) (shown w) (clock w) (clock_reads w)
  /\ reads_clock (2 * List.length (shown w)) w
       (snd (CmdWho.who_table s (sorted account_key (SESSIONS w)) w)).
Proof.
  unfold table_of, shown. rewrite who_table_loop.
  destruct (for_each_loop_body (view_row s) (sorted account_key (SESSIONS w))
              (PrettyTable (view_fields s)) w) as (Hf & Hr & Hw).
  repeat split; try apply Hw; assumption.
Qed.

Lemma func_outbox (s : CmdWho.self) (w : World) :
  outbox (snd (CmdWho.func s w))
  = outbox w ++ [CmdWho.report (table_of s w) (nplayers_logged_in w)].
Proof.
  destruct (who_table_rows s w) as (_ & _ & Hw).
  destruct Hw as (_ & _ & _ & _ & Hout).
  unfold CmdWho.func, bind, get_sessions, player_count, msg, table_of in *.
  fold account_key.
  destruct (CmdWho.who_table s (sorted account_key (SESSIONS w)) w) as [table w'].
  cbn in *. now rewrite Hout.
Qed.

Lemma func_frame (s : CmdWho.self) (w : World) :
  SESSIONS (snd (CmdWho.func s w)) = SESSIONS w
  /\ nplayers_logged_in (snd (CmdWho.func s w)) = nplayers_logged_in w
  /\ clock (snd (CmdWho.func s w)) = clock w
  /\ clock_reads (snd (CmdWho.func s w)) = clock_reads w + 2 * List.length (shown w).
Proof.
  destruct (who_table_rows s w) as (_ & _ & Hw).
  destruct Hw as (H1 & H2 & H3 & H4 & _).
  unfold CmdWho.func, bind, get_sessions, player_count, msg in *.
  fold account_key.
  destruct (CmdWho.who_table s (sorted account_key (SESSIONS w)) w) as [table w'].
  cbn in *. auto.
Qed.

Lemma roster_length mk (l : list Session.t) clk :
  forall n, List.length (roster mk l clk n) = List.length l.
Proof. induction l as [| x l IH]; intros n; cbn; [reflexivity | now rewrite IH]. Qed.

Lemma roster_rows mk (l : list Session.t) clk :
  forall n,
    Forall2 (fun session row => exists now1 now2, row = mk session now1 now2)
      l (roster mk l clk n).
Proof.
  induction l as [| x l IH]; intros n; cbn; constructor; eauto.
Qed.

Lemma roster_Forall mk (P : list Cell -> Prop) (l : list Session.t) clk :
  (forall session now1 now2, In session l -> P (mk session now1 now2)) ->
  forall n, Forall P (roster mk l clk n).
Proof.
  induction l as [| x l IH]; intros HP n; cbn; constructor.
  - apply HP. now left.
  - apply IH. intros. apply HP. now right.
Qed.

Lemma shown_perm (w : World) :
  Permutation (shown w) (filter Session.logged_in (SESSIONS w)).
Proof. unfold shown. apply filter_perm. symmetry. apply sorted_perm. Qed.

Lemma shown_sorted (w : World) : StronglySorted (key_le account_key) (shown w).
Proof. unfold shown. apply filter_StronglySorted, sorted_StronglySorted. Qed.
End Loop_facts.

(** ** The roster: which sessions are shown, and in which order *)

(** C1: whatever the view, the table that [who] reports has one row for
    each session whose [logged_in] flag is true and none for the others,
    and the rows follow the ascending order of the owning accounts' keys:
    the rows are those of the sessions [shown w], row by row, [shown w] is
    a rearrangement of the logged-in sessions of the registry, and it is
    sorted by account key. *)
Theorem who_rows_logged_in_sorted `{Host} (s : CmdWho.self) (w : World) :
  outbox (snd (CmdWho.func s w))
  = outbox w ++ [CmdWho.report (table_of s w) (nplayers_logged_in w)]
  /\ Permutation (shown w) (filter Session.logged_in (SESSIONS w))
  /\ StronglySorted (key_le account_key) (shown w)
  /\ Forall2 (fun session row => exists now1 now2, row = view_row s session now1 now2)
       (shown w) (rows (table_of s w))
  /\ List.length (rows (table_of s w))
     = List.length (filter Session.logged_in (SESSIONS w)).
Proof.
  destruct (who_table_rows s w) as (_ & Hrows & _).
  split; [apply func_outbox |].
  split; [apply shown_perm |].
  split; [apply shown_sorted |].
  rewrite Hrows. split.
  - apply roster_rows.
  - rewrite roster_length. apply Permutation_length, shown_perm.
Qed.

(** ** The summary line *)

Lemma report_summary `{Host} (table : Table) (n : nat) :
  CmdWho.report table n
  = ("{wPlayers:{n" ++ nl ++ table_str table ++ nl ++ summary_line n)%string.
Proof.
  unfold CmdWho.report, summary_line. destruct (n =? 1)%nat; reflexivity.
Qed.

(** C4: the report ends with a line that gives the count of the session
    collaborator: "One unique account logged in." when the count is 1 and
    "N unique accounts logged in." for every other count N; for the count
    zero this is the plural line "0 unique accounts logged in.". *)
Theorem who_summary_line `{Host} (s : CmdWho.self) (w : World) :
  outbox (snd (CmdWho.func s w))
  = outbox w ++ [("{wPlayers:{n" ++ nl ++ table_str (table_of s w) ++ nl
                  ++ summary_line (nplayers_logged_in w))%string]
  /\ summary_line 1 = "One unique account logged in."
  /\ (forall n : nat, n <> 1 ->
        summary_line n = (str_of_nat n ++ " unique accounts logged in.")%string)
  /\ summary_line 0 = "0 unique accounts logged in.".
Proof.
  split; [rewrite func_outbox, report_summary; reflexivity |].
  split; [reflexivity |]. split; [| reflexivity].
  intros n Hn. unfold summary_line.
  destruct (Nat.eqb_spec n 1); [contradiction | reflexivity].
Qed.

(** ** The frame of [who] *)

(** C8: running [who] leaves the session registry (the session records,
    with their accounts and puppets) and the account count as they were
    and sends exactly one message to the caller; besides that it only reads
    the clock. *)
Theorem who_only_sends_one_message `{Host} (s : CmdWho.self) (w : World) :
  SESSIONS (snd (CmdWho.func s w)) = SESSIONS w
  /\ nplayers_logged_in (snd (CmdWho.func s w)) = nplayers_logged_in w
  /\ clock (snd (CmdWho.func s w)) = clock w
  /\ exists text : string, outbox (snd (CmdWho.func s w)) = outbox w ++ [text].
Proof.
  destruct (func_frame s w) as (H1 & H2 & H3 & _).
  repeat split; try assumption.
  eexists. apply func_outbox.
Qed.

(** ** The three views *)

Section View_facts.
Context `{Host}.

Lemma elevated_shows_session_data (s : CmdWho.self) :
  CmdWho.f_in_switches s = true ->
  check_permstring (CmdWho.player s) "Immortals" = true
  \/ check_permstring (CmdWho.player s) "Wizards" = true ->
  CmdWho.show_session_data s = true.
Proof.
  intros Hf Hperm. unfold CmdWho.show_session_data. rewrite Hf.
  apply orb_true_iff. exact Hperm.
Qed.


Lemma view_full (s : CmdWho.self) :
  CmdWho.f_in_switches s = true -> CmdWho.show_session_data s = true ->
  view_row s = full_row
  /\ view_fields s = ["{wPlayer Name"; "{wOn for"; "{wIdle"; "{wCharacter";
                      "{wRoom"; "{wCmds"; "{wProtocol"; "{wHost"].
Proof. intros Hf Hs. unfold view_row, view_fields. now rewrite Hf, Hs. Qed.

Lemma view_moderate (s : CmdWho.self) :
  CmdWho.f_in_switches s = true -> CmdWho.show_session_data s = false ->
  view_row s = moderate_row
  /\ view_fields s = ["{wCharacter"; "{wOn for"; "{wIdle"; "{wLocation"].
Proof. intros Hf Hs. unfold view_row, view_fields. now rewrite Hf, Hs. Qed.

Lemma view_minimal (s : CmdWho.self) :
  CmdWho.f_in_switches s = false ->
  view_row s = minimal_row
  /\ view_fields s = ["{wCharacter"; "{wOn for"; "{wIdle"].
Proof. intros Hf. unfold view_row, view_fields. now rewrite Hf. Qed.

(** A property of every row that a view can make holds of the rows of the
    table, session by session. *)
Lemma table_rows_Forall2 (s : CmdWho.self) (w : World)
    (P : Session.t -> list Cell -> Prop) :
  (forall session now1 now2, P session (view_row s session now1 now2)) ->
  Forall2 P (shown w) (rows (table_of s w)).
Proof.
  intros HP. destruct (who_table_rows s w) as (_ & Hrows & _). rewrite Hrows.
  eapply Forall2_impl; [| apply roster_rows].
  intros session row (now1 & now2 & ->). apply HP.
Qed.

Lemma table_rows_Forall (s : CmdWho.self) (w : World) (P : list Cell -> Prop) :
  (forall session now1 now2, P (view_row s session now1 now2)) ->
  Forall P (rows (table_of s w)).
Proof.
  intros HP. destruct (who_table_rows s w) as (_ & Hrows & _). rewrite Hrows.
  apply roster_Forall. intros. apply HP.
Qed.
End View_facts.

(** C2: with the [f] switch and a caller that holds [Immortals] or
    [Wizards], [who] reports a table of eight columns (player name, on for,
    idle, character, room, commands, protocol, host); every row has eight
    cells, made from its session as in [full_row], and the account name
    and the room are cropped to the width 25, hence at most 25 characters
    long when [utils.crop] keeps to its width. *)
Theorem who_f_elevated_full_view `{Host} (s : CmdWho.self) (w : World) :
  crop_bounded ->
  CmdWho.f_in_switches s = true ->
  check_permstring (CmdWho.player s) "Immortals" = true
  \/ check_permstring (CmdWho.player s) "Wizards" = true ->
  outbox (snd (CmdWho.func s w))
  = outbox w ++ [CmdWho.report (table_of s w) (nplayers_logged_in w)]
  /\ field_names (table_of s w)
     = ["{wPlayer Name"; "{wOn for"; "{wIdle"; "{wCharacter";
        "{wRoom"; "{wCmds"; "{wProtocol"; "{wHost"]
  /\ List.length (field_names (table_of s w)) = 8
  /\ Forall2 (fun session row =>
                exists (on idle : string),
                  row = [CStr (crop (Player.name (Session.get_player session)) 25);
                         CStr on; CStr idle;
                         CStr (crop (puppet_key_or "None" (Session.get_puppet session)) 25);
                         CStr (crop (puppet_location (Session.get_puppet session)) 25);
                         CInt (Session.cmd_total session);
                         CStr (Session.protocol_key session);
                         host_of (Session.address session)])
       (shown w) (rows (table_of s w))
  /\ Forall (fun row =>
               exists (name on idle character room protocol : string) (cmds : Z) (host : Cell),
                 row = [CStr name; CStr on; CStr idle; CStr character; CStr room;
                        CInt cmds; CStr protocol; host]
                 /\ String.length name <= 25 /\ String.length room <= 25)
       (rows (table_of s w)).
Proof.
  intros Hcrop Hf Hperm.
  pose proof (elevated_shows_session_data s Hf Hperm) as Hshow.
  destruct (view_full s Hf Hshow) as (Hrow & Hfields).
  destruct (who_table_rows s w) as (Hnames & _ & _).
  split; [apply func_outbox |].
  rewrite Hnames, Hfields.
  split; [reflexivity |]. split; [reflexivity |]. split.
  - apply table_rows_Forall2. intros session now1 now2. rewrite Hrow.
    unfold full_row. eauto.
  - apply table_rows_Forall. intros session now1 now2. rewrite Hrow.
    unfold full_row. do 8 eexists. split; [reflexivity |].
    split; apply Hcrop.
Qed.

(** C10: the crop to the width 25 is part of every view.  The minimal view
    crops the character name; the [who/f] view of a caller without the
    permissions crops the character name and the location; the privileged
    view crops the account name, the character name and the room.  Each
    cropped text is at most 25 characters long when [utils.crop] keeps to
    its width. *)
Theorem who_crops_in_every_view `{Host} (s : CmdWho.self) (w : World) :
  crop_bounded ->
  (CmdWho.f_in_switches s = false ->
   Forall2 (fun session row =>
              exists (on idle : string),
                row = [CStr (crop (puppet_key_or "- Unknown -" (Session.get_puppet session)) 25);
                       CStr on; CStr idle]
                /\ String.length
                     (crop (puppet_key_or "- Unknown -" (Session.get_puppet session)) 25) <= 25)
     (shown w) (rows (table_of s w)))
  /\ (CmdWho.f_in_switches s = true -> CmdWho.show_session_data s = false ->
      Forall2 (fun session row =>
                 exists (on idle : string),
                   row = [CStr (crop (puppet_key_or "- Unknown -" (Session.get_puppet session)) 25);
                          CStr on; CStr idle;
                          CStr (crop (puppet_location (Session.get_puppet session)) 25)]
                   /\ String.length
                        (crop (puppet_key_or "- Unknown -" (Session.get_puppet session)) 25) <= 25
                   /\ String.length
                        (crop (puppet_location (Session.get_puppet session)) 25) <= 25)
        (shown w) (rows (table_of s w)))
  /\ (CmdWho.f_in_switches s = true -> CmdWho.show_session_data s = true ->
      Forall2 (fun session row =>
                 exists (on idle : string) (cmds protocol host : Cell),
                   row = [CStr (crop (Player.name (Session.get_player session)) 25);
                          CStr on; CStr idle;
                          CStr (crop (puppet_key_or "None" (Session.get_puppet session)) 25);
                          CStr (crop (puppet_location (Session.get_puppet session)) 25);
                          cmds; protocol; host]
                   /\ String.length (crop (Player.name (Session.get_player session)) 25) <= 25
                   /\ String.length
                        (crop (puppet_key_or "None" (Session.get_puppet session)) 25) <= 25
                   /\ String.length
                        (crop (puppet_location (Session.get_puppet session)) 25) <= 25)
        (shown w) (rows (table_of s w))).
Proof.
  intros Hcrop. split; [| split].
  - intros Hf. destruct (view_minimal s Hf) as (Hrow & _).
    apply table_rows_Forall2. intros session now1 now2. rewrite Hrow.
    unfold minimal_row. do 2 eexists. split; [reflexivity | apply Hcrop].
  - intros Hf Hs. destruct (view_moderate s Hf Hs) as (Hrow & _).
    apply table_rows_Forall2. intros session now1 now2. rewrite Hrow.
    unfold moderate_row. do 2 eexists. split; [reflexivity |]. split; apply Hcrop.
  - intros Hf Hs. destruct (view_full s Hf Hs) as (Hrow & _).
    apply table_rows_Forall2. intros session now1 now2. rewrite Hrow.
    unfold full_row. do 5 eexists. split; [reflexivity |]. repeat split; apply Hcrop.
Qed.

(** ** The unprivileged [who/f] view does not depend on the hidden fields *)

Section Same_public_facts.
Context {A : Type}.
Variable k : A -> string.
Variable R : A -> A -> Prop.
Hypothesis R_key : forall a b, R a b -> k a = k b.

Lemma insert_by_Forall2 (x x' : A) (l l' : list A) :
  R x x' -> Forall2 R l l' -> Forall2 R (insert_by k x l) (insert_by k x' l').
Proof.
  intros Hx Hl. induction Hl as [| y y' l l' Hy Hl IH]; cbn.
  - repeat constructor. assumption.
  - rewrite (R_key _ _ Hx), (R_key _ _ Hy).
    destruct (k y' <? k x')%string; repeat (constructor; try assumption).
Qed.

Lemma sorted_Forall2 (l l' : list A) :
  Forall2 R l l' -> Forall2 R (sorted k l) (sorted k l').
Proof.
  induction 1; cbn; [constructor | now apply insert_by_Forall2].
Qed.

Lemma filter_Forall2 (p : A -> bool) (l l' : list A) :
  (forall a b, R a b -> p a = p b) ->
  Forall2 R l l' -> Forall2 R (filter p l) (filter p l').
Proof.
  intros Hp. induction 1 as [| y y' l l' Hy Hl IH]; cbn; [constructor |].
  rewrite (Hp _ _ Hy). destruct (p y'); [constructor |]; assumption.
Qed.
End Same_public_facts.

Section Noninterference_facts.
Context `{Host}.




Lemma table_eq (t1 t2 : Table) :
  field_names t1 = field_names t2 -> rows t1 = rows t2 -> t1 = t2.
Proof. destruct t1, t2; cbn; intros -> ->; reflexivity. Qed.
End Noninterference_facts.


(** ** Placeholders for a session without a puppet *)

(** C9, amended: for a session without a puppet the privileged [who/f]
    view shows "None" as the character and "None" as the room; the
    [who/f] view of a caller without the permissions shows "- Unknown -"
    as the character and "None" as the location; the minimal view shows
    "- Unknown -" as the character and has no location cell.  ([utils.crop]
    is taken to return a text of at most 25 characters as it is.) *)
Theorem who_placeholders `{Host} (s : CmdWho.self) (w : World) :
  crop_keeps_short ->
  (CmdWho.f_in_switches s = true -> CmdWho.show_session_data s = true ->
   Forall2 (fun session row =>
              Session.get_puppet session = None ->
              exists (name on idle cmds protocol host : Cell),
                row = [name; on; idle; CStr "None"; CStr "None"; cmds; protocol; host])
     (shown w) (rows (table_of s w)))
  /\ (CmdWho.f_in_switches s = true -> CmdWho.show_session_data s = false ->
      Forall2 (fun session row =>
                 Session.get_puppet session = None ->
                 exists (on idle : Cell),
                   row = [CStr "- Unknown -"; on; idle; CStr "None"])
        (shown w) (rows (table_of s w)))
  /\ (CmdWho.f_in_switches s = false ->
      Forall2 (fun session row =>
                 Session.get_puppet session = None ->
                 exists (on idle : Cell), row = [CStr "- Unknown -"; on; idle])
        (shown w) (rows (table_of s w))).
Proof.
  intros Hcrop.
  assert (HNone : crop "None" 25 = "None") by (apply Hcrop; cbn; lia).
  assert (HUnk : crop "- Unknown -" 25 = "- Unknown -") by (apply Hcrop; cbn; lia).
  split; [| split].
  - intros Hf Hs. destruct (view_full s Hf Hs) as (Hrow & _).
    apply table_rows_Forall2. intros session now1 now2 Hpup. rewrite Hrow.
    unfold full_row. rewrite Hpup. cbn [puppet_key_or puppet_location].
    rewrite HNone. do 6 eexists. reflexivity.
  - intros Hf Hs. destruct (view_moderate s Hf Hs) as (Hrow & _).
    apply table_rows_Forall2. intros session now1 now2 Hpup. rewrite Hrow.
    unfold moderate_row. rewrite Hpup. cbn [puppet_key_or puppet_location].
    rewrite HNone, HUnk. do 2 eexists. reflexivity.
  - intros Hf. destruct (view_minimal s Hf) as (Hrow & _).
    apply table_rows_Forall2. intros session now1 now2 Hpup. rewrite Hrow.
    unfold minimal_row. rewrite Hpup. cbn [puppet_key_or].
    rewrite HUnk. do 2 eexists. reflexivity.
Qed.

(** ** The example host keeps to the width *)

Lemma length_append (s1 s2 : string) :
  String.length (s1 ++ s2)%string = String.length s1 + String.length s2.
Proof. induction s1 as [| c s1 IH]; cbn; [reflexivity | now rewrite IH]. Qed.

Lemma length_prefix (n : nat) (s : string) :
  String.length (String.substring 0 n s) <= n.
Proof.
  revert s. induction n as [| n IH]; intros [| c s]; cbn; try lia.
  specialize (IH s). lia.
Qed.

Lemma demo_crop_bounded : @crop_bounded Demo.host.
Proof.
  intros s. cbn. unfold Demo.crop.
  destruct (Nat.leb_spec (String.length s) 25); [assumption |].
  rewrite length_append. pose proof (length_prefix (25 - 5) s). cbn in *. lia.
Qed.

Lemma demo_crop_keeps_short : @crop_keeps_short Demo.host.
Proof.
  intros s Hs. cbn. unfold Demo.crop.
  destruct (Nat.leb_spec (String.length s) 25); [reflexivity | lia].
Qed.

(** ** The claims at the example world *)

Lemma who_f_elevated_full_view_witness :
  List.length (field_names (table_of Demo.who_f_admin Demo.world)) = 8
  /\ List.length (rows (table_of Demo.who_f_admin Demo.world)) = 3.
Proof.
  destruct (who_f_elevated_full_view Demo.who_f_admin Demo.world demo_crop_bounded
              eq_refl (or_introl eq_refl)) as (_ & _ & Hcols & _).
  split; [exact Hcols | reflexivity].
Defined.

Lemma who_crops_in_every_view_witness :
  Forall2 (fun session row =>
             exists (on idle : string),
               row = [CStr (crop (puppet_key_or "- Unknown -" (Session.get_puppet session)) 25);
                      CStr on; CStr idle]
               /\ String.length
                    (crop (puppet_key_or "- Unknown -" (Session.get_puppet session)) 25) <= 25)
    (shown Demo.world) (rows (table_of Demo.who Demo.world)).
Proof.
  exact (proj1 (who_crops_in_every_view Demo.who Demo.world demo_crop_bounded) eq_refl).
Defined.

Lemma who_placeholders_witness :
  Forall2 (fun session row =>
             Session.get_puppet session = None ->
             exists (on idle : Cell), row = [CStr "- Unknown -"; on; idle; CStr "None"])
    (shown Demo.world) (rows (table_of Demo.who_f Demo.world)).
Proof.
  exact (proj1 (proj2 (who_placeholders Demo.who_f Demo.world demo_crop_keeps_short))
           eq_refl eq_refl).
Defined.



(** C9 as stated fails in the minimal view: the rows of [who] at the
    example world have three cells, and the row of a session without a
    puppet shows no "None". *)
Lemma minimal_view_shows_no_location :
  rows (table_of Demo.who Demo.world)
  = [[CStr "Sir Amy"; CStr "901s"; CStr "100 sec"];
     [CStr "- Unknown -"; CStr "903s"; CStr "102 sec"];
     [CStr "- Unknown -"; CStr "905s"; CStr "104 sec"]]
  /\ ~ puppetless_show_None Demo.who Demo.world.
Proof.
  split; [reflexivity |].
  unfold puppetless_show_None. intros Hall.
  assert (Hrows : rows (table_of Demo.who Demo.world)
                  = [[CStr "Sir Amy"; CStr "901s"; CStr "100 sec"];
                     [CStr "- Unknown -"; CStr "903s"; CStr "102 sec"];
                     [CStr "- Unknown -"; CStr "905s"; CStr "104 sec"]]) by reflexivity.
  assert (Hshown : shown Demo.world
                   = [Demo.session Demo.amy true (Some Demo.knight);
                      Demo.session Demo.bob true None;
                      Demo.session Demo.zed true None]) by reflexivity.
  rewrite Hrows, Hshown in Hall.
  inversion Hall as [| ? ? ? ? _ Hrest]; subst.
  inversion Hrest as [| ? ? ? ? Hbob _]; subst.
  specialize (Hbob eq_refl). cbn in Hbob.
  repeat (destruct Hbob as [Hbob | Hbob]; [discriminate |]). exact Hbob.
Qed.

(** ** The lifecycle of a command *)

(** C7 as stated fails at its first clause: the pre-hook of the base
    [Command] is [pass]; it returns [None], which is not a boolean. *)
Lemma base_at_pre_cmd_returns_None :
  fst (Command.at_pre_cmd Demo.world) = PyNone
  /\ is_bool (fst (Command.at_pre_cmd Demo.world)) = false
  /\ ~ (exists b : bool, fst (Command.at_pre_cmd Demo.world) = PyBool b).
Proof.
  split; [reflexivity |]. split; [reflexivity |].
  intros (b & Hb). discriminate Hb.
Qed.

(** C7, amended: the pre-hook of the base [Command] returns [None] and
    changes nothing, so the base command never aborts and runs its four
    hooks, [func] sending "Command called!".  For every command, the
    dispatcher stops after the pre-hook, running no further hook, exactly
    when the value the pre-hook returned is true; otherwise [parse], [func]
    and [at_post_cmd] run in this order.  The lifecycle has no other
    short-circuit. *)
Theorem pre_hook_is_the_only_short_circuit `{Host} (c : Hooks) (w : World) :
  (forall w0 : World, Command.at_pre_cmd w0 = (PyNone, w0))
  /\ (truthy (fst (h_at_pre_cmd c w)) = true <->
      run_command c w = ([AtPreCmd], snd (h_at_pre_cmd c w)))
  /\ (truthy (fst (h_at_pre_cmd c w)) = false <->
      run_command c w
      = ([AtPreCmd; Parse; Func; AtPostCmd],
         snd (h_at_post_cmd c (snd (h_func c (snd (h_parse c (snd (h_at_pre_cmd c w)))))))))
  /\ run_command Command.hooks w
     = ([AtPreCmd; Parse; Func; AtPostCmd], snd (msg "Command called!" w)).
Proof.
  split; [reflexivity |].
  assert (Hrun : run_command c w
                 = if truthy (fst (h_at_pre_cmd c w))
                   then ([AtPreCmd], snd (h_at_pre_cmd c w))
                   else ([AtPreCmd; Parse; Func; AtPostCmd],
                         snd (h_at_post_cmd c
                                (snd (h_func c (snd (h_parse c (snd (h_at_pre_cmd c w))))))))).
  { unfold run_command, bind, ret.
    destruct (h_at_pre_cmd c w) as [r w1]; cbn [fst snd].
    destruct (truthy r); [reflexivity |].
    destruct (h_parse c w1) as [[] w2]; cbn [fst snd].
    destruct (h_func c w2) as [[] w3]; cbn [fst snd].
    destruct (h_at_post_cmd c w3) as [[] w4]; reflexivity. }
  rewrite Hrun.
  split; [| split].
  - destruct (truthy (fst (h_at_pre_cmd c w))).
    + split; reflexivity.
    + split; [discriminate |]. intros Heq. inversion Heq.
  - destruct (truthy (fst (h_at_pre_cmd c w))).
    + split; [discriminate |]. intros Heq. inversion Heq.
    + split; reflexivity.
  - reflexivity.
Qed.

(** ** The MUX parser *)

Section Parser_facts.
Import MuxCommand.

Lemma rstrip_keeps_head (c : ascii) (s : string) :
  is_space c = false -> rstrip (String c s) = String c (rstrip s).
Proof. intros Hc. cbn. rewrite Hc. now destruct (rstrip s). Qed.

Lemma strip_keeps_head (c : ascii) (s : string) :
  is_space c = false -> strip (String c s) = String c (rstrip s).
Proof.
  intros Hc. unfold strip. cbn [lstrip]. rewrite Hc. now apply rstrip_keeps_head.
Qed.

Lemma strip_switches_rest (s : string) :
  forall cur : option string, starts_with_content (snd (strip_switches cur s)).
Proof.
  induction s as [| c s IH]; intros cur.
  - destruct cur; left; reflexivity.
  - cbn [strip_switches]. destruct cur as [n |].
    + destruct (is_slash c) eqn:Hslash.
      * specialize (IH (Some EmptyString)).
        destruct (strip_switches (Some EmptyString) s); exact IH.
      * destruct (is_space c) eqn:Hspace.
        -- specialize (IH None). destruct (strip_switches None s); exact IH.
        -- apply IH.
    + destruct (is_space c) eqn:Hspace; [apply IH |].
      destruct (is_slash c) eqn:Hslash; [apply IH |].
      right. exists c, s. auto.
Qed.

Lemma strip_content (s : string) :
  starts_with_content s -> starts_with_content (strip s).
Proof.
  intros [-> | (c & r & -> & Hspace & Hslash)].
  - left. reflexivity.
  - right. exists c, (rstrip r). rewrite strip_keeps_head by assumption. auto.
Qed.

Lemma strip_switches_content (s : string) :
  starts_with_content s -> fst (strip_switches None s) = [].
Proof.
  intros [-> | (c & r & -> & Hspace & Hslash)]; cbn; [reflexivity |].
  now rewrite Hspace, Hslash.
Qed.

Lemma parse_switches (raw : string) :
  switches (parse raw) = fst (strip_switches None raw).
Proof.
  unfold parse. destruct (strip_switches None raw) as [sw rest].
  now destruct (partition_at "=" (strip rest)) as [[l r] |].
Qed.

Lemma parse_args (raw : string) :
  args (parse raw) = strip (snd (strip_switches None raw)).
Proof.
  unfold parse. destruct (strip_switches None raw) as [sw rest].
  now destruct (partition_at "=" (strip rest)) as [[l r] |].
Qed.

Lemma strip_switches_no_slash (s : string) :
  contains "/" s = false -> strip_switches None s = ([], lstrip s).
Proof.
  induction s as [| c s IH]; cbn; [reflexivity |].
  intros Hc. apply orb_false_iff in Hc. destruct Hc as (Hc & Hs).
  destruct (is_space c); [now apply IH |].
  unfold is_slash. now rewrite Hc.
Qed.

Lemma contains_lstrip (c : ascii) (s : string) :
  contains c s = false -> contains c (lstrip s) = false.
Proof.
  induction s as [| d s IH]; cbn; [reflexivity |].
  intros Hc. destruct (is_space d); [| exact Hc].
  apply orb_false_iff in Hc. now apply IH.
Qed.

Lemma contains_rstrip (c : ascii) (s : string) :
  contains c s = false -> contains c (rstrip s) = false.
Proof.
  induction s as [| d s IH]; cbn; [reflexivity |].
  intros Hc. apply orb_false_iff in Hc. destruct Hc as (Hd & Hs).
  specialize (IH Hs). destruct (rstrip s) as [| e r].
  - destruct (is_space d); cbn; [reflexivity | now rewrite Hd].
  - cbn [contains] in *. now rewrite Hd.
Qed.

Lemma partition_at_absent (d : ascii) (s : string) :
  contains d s = false -> partition_at d s = None.
Proof.
  induction s as [| c s IH]; cbn; [reflexivity |].
  intros Hc. apply orb_false_iff in Hc. destruct Hc as (Hd & Hs).
  now rewrite Hd, IH.
Qed.

Lemma parse_rhslist (raw : string) :
  match rhs (parse raw) with
  | Some r => rhslist (parse raw) = comma_list r
  | None => rhslist (parse raw) = []
  end.
Proof.
  unfold parse. destruct (strip_switches None raw) as [sw rest].
  now destruct (partition_at "=" (strip rest)) as [[l r] |].
Qed.
End Parser_facts.

(** C5: for a raw argument string with no slash and no equals sign the
    parser gives no switches, [lhs] equal to [args] and an absent [rhs];
    and for every input [rhslist] is computed from [rhs] (its trimmed
    comma-separated segments) when [rhs] is present and is empty when [rhs]
    is absent. *)
Theorem parse_plain_arguments (raw : string) :
  MuxCommand.contains "/" raw = false ->
  MuxCommand.contains "=" raw = false ->
  (MuxCommand.switches (MuxCommand.parse raw) = []
   /\ MuxCommand.lhs (MuxCommand.parse raw) = MuxCommand.args (MuxCommand.parse raw)
   /\ MuxCommand.rhs (MuxCommand.parse raw) = None)
  /\ (forall input : string,
        (MuxCommand.rhs (MuxCommand.parse input) = None ->
         MuxCommand.rhslist (MuxCommand.parse input) = [])
        /\ (forall r : string,
              MuxCommand.rhs (MuxCommand.parse input) = Some r ->
              MuxCommand.rhslist (MuxCommand.parse input) = MuxCommand.comma_list r)).
Proof.
  intros Hslash Heq. split.
  - unfold MuxCommand.parse. rewrite (strip_switches_no_slash raw Hslash).
    rewrite partition_at_absent; [cbn; auto |].
    unfold MuxCommand.strip. now apply contains_rstrip, contains_lstrip, contains_lstrip.
  - intros input. pose proof (parse_rhslist input) as Hr.
    destruct (MuxCommand.rhs (MuxCommand.parse input)) as [r0 |].
    + split; [discriminate |]. intros r [= <-]. exact Hr.
    + split; [intros _; exact Hr | discriminate].
Qed.

Lemma parse_plain_arguments_witness :
  MuxCommand.switches (MuxCommand.parse " look  north ") = []
  /\ MuxCommand.lhs (MuxCommand.parse " look  north ") = "look  north"
  /\ MuxCommand.rhs (MuxCommand.parse " look  north ") = None.
Proof.
  destruct (parse_plain_arguments " look  north " eq_refl eq_refl)
    as ((Hsw & Hlhs & Hrhs) & _).
  split; [exact Hsw |]. split; [rewrite Hlhs; reflexivity | exact Hrhs].
Defined.

(** C6: parsing the [args] that a first parse left yields no switches. *)
Theorem parse_switches_idempotent (raw : string) :
  MuxCommand.switches (MuxCommand.parse (MuxCommand.args (MuxCommand.parse raw))) = [].
Proof.
  rewrite parse_switches, parse_args.
  apply strip_switches_content, strip_content, strip_switches_rest.
Qed.


(** ** The definitions at work *)

Example sorted_is_stable :
  sorted fst [("b", 1); ("a", 2); ("b", 3); ("a", 4); ("B", 5)]
  = [("B", 5); ("a", 2); ("a", 4); ("b", 1); ("b", 3)].
Proof. reflexivity. Qed.

Example who_f_admin_rows :
  rows (table_of Demo.who_f_admin Demo.world)
  = [[CStr "Amy"; CStr "901s"; CStr "100 sec"; CStr "Sir Amy"; CStr "Great Hall";
      CInt 7; CStr "telnet"; CStr "10.0.0.1"];
     [CStr "Bob"; CStr "903s"; CStr "102 sec"; CStr "None"; CStr "None";
      CInt 7; CStr "telnet"; CStr "10.0.0.1"];
     [CStr "Zed"; CStr "905s"; CStr "104 sec"; CStr "None"; CStr "None";
      CInt 7; CStr "telnet"; CStr "10.0.0.1"]].
Proof. reflexivity. Qed.

Example who_f_rows :
  rows (table_of Demo.who_f Demo.world)
  = [[CStr "Sir Amy"; CStr "901s"; CStr "100 sec"; CStr "Great Hall"];
     [CStr "- Unknown -"; CStr "903s"; CStr "102 sec"; CStr "None"];
     [CStr "- Unknown -"; CStr "905s"; CStr "104 sec"; CStr "None"]].
Proof. reflexivity. Qed.

(** The account key is not among the hidden fields: it orders the rows of
    every view, so a change of key can move a row. *)
Example who_f_rows_follow_account_key :
  rows (table_of Demo.who_f Demo.rekeyed)
  = [[CStr "- Unknown -"; CStr "901s"; CStr "100 sec"; CStr "None"];
     [CStr "- Unknown -"; CStr "903s"; CStr "102 sec"; CStr "None"];
     [CStr "Sir Amy"; CStr "905s"; CStr "104 sec"; CStr "Great Hall"]].
Proof. reflexivity. Qed.

Example crop_long_name :
  Demo.crop "Bartholomew the Unreasonably Long-Named" 25
  = "Bartholomew the Unre[...]".
Proof. reflexivity. Qed.

Example host_of_tuple : host_of (AddrTuple "10.0.0.1" 4000) = CStr "10.0.0.1".
Proof. reflexivity. Qed.

Example host_of_tuple_without_host : host_of (AddrTuple "" 4000) = CTuple "" 4000.
Proof. reflexivity. Qed.

Example summary_of_two : summary_line 2 = "2 unique accounts logged in.".
Proof. reflexivity. Qed.

Example base_command_runs_all_hooks :
  fst (run_command Command.hooks Demo.world) = [AtPreCmd; Parse; Func; AtPostCmd]
  /\ outbox (snd (run_command Command.hooks Demo.world)) = ["Command called!"].
Proof. split; reflexivity. Qed.

Example parse_switches_and_sides :
  MuxCommand.parse "/F/x  name1,name2 = val1, val2 "
  = {| MuxCommand.raw := "/F/x  name1,name2 = val1, val2 ";
       MuxCommand.switches := ["f"; "x"];
       MuxCommand.args := "name1,name2 = val1, val2";
       MuxCommand.lhs := "name1,name2";
       MuxCommand.rhs := Some "val1, val2";
       MuxCommand.lhslist := ["name1"; "name2"];
       MuxCommand.rhslist := ["val1"; "val2"];
       MuxCommand.arglist := ["name1,name2"; "="; "val1,"; "val2"] |}.
Proof. reflexivity. Qed.

Example parse_first_equals_only :
  MuxCommand.lhs (MuxCommand.parse "a = b = c") = "a"
  /\ MuxCommand.rhs (MuxCommand.parse "a = b = c") = Some "b = c".
Proof. split; reflexivity. Qed.

Example parse_again_finds_no_switch :
  MuxCommand.args (MuxCommand.parse "/f/g here") = "here"
  /\ MuxCommand.switches (MuxCommand.parse "here") = [].
Proof. split; reflexivity. Qed.

(** ** More about the table of [who] *)

Section Table_facts.
Context `{Host}.

Lemma roster_nth mk (l : list Session.t) (clk : nat -> Time) :
  forall (n i : nat) (session : Session.t),
    nth_error l i = Some session ->
    nth_error (roster mk l clk n) i
    = Some (mk session (clk (n + 2 * i)) (clk (n + 2 * i + 1))).
Proof.
  induction l as [| x l IH]; intros n i session Hi.
  - destruct i; discriminate Hi.
  - destruct i as [| i]; cbn in *.
    + injection Hi as ->. do 3 f_equal; lia.
    + rewrite (IH (S (S n)) i session Hi). do 3 f_equal; lia.
Qed.

Lemma filter_none {A : Type} (p : A -> bool) (l : list A) :
  Forall (fun x => p x = false) l -> filter p l = [].
Proof.
  induction 1 as [| x l Hx _ IH]; cbn; [reflexivity | now rewrite Hx].
Qed.

Lemma shown_length (w : World) :
  List.length (shown w) = List.length (filter Session.logged_in (SESSIONS w)).
Proof. apply Permutation_length, shown_perm. Qed.

Lemma view_row_length (s : CmdWho.self) (session : Session.t) (now1 now2 : Time) :
  List.length (view_row s session now1 now2) = List.length (view_fields s).
Proof.
  unfold view_row, view_fields.
  destruct (CmdWho.f_in_switches s); [destruct (CmdWho.show_session_data s) |];
    reflexivity.
Qed.

Lemma view_row_durations (s : CmdWho.self) (session : Session.t) (now1 now2 : Time) :
  nth_error (view_row s session now1 now2) 1
  = Some (CStr (time_format (time_sub now2 (Session.conn_time session)) 0))
  /\ nth_error (view_row s session now1 now2) 2
     = Some (CStr (time_format (time_sub now1 (Session.cmd_last_visible session)) 1)).
Proof.
  unfold view_row.
  destruct (CmdWho.f_in_switches s); [destruct (CmdWho.show_session_data s) |];
    split; reflexivity.
Qed.
End Table_facts.

(** X1: in every view each row of the table has as many cells as the
    table has columns. *)
Theorem who_rows_fit_columns `{Host} (s : CmdWho.self) (w : World) :
  Forall (fun row => List.length row = List.length (field_names (table_of s w)))
    (rows (table_of s w)).
Proof.
  destruct (who_table_rows s w) as (Hfields & _ & _). rewrite Hfields.
  apply table_rows_Forall. intros session now1 now2. apply view_row_length.
Qed.

(** X2: the row at position [i] is that of the [i]-th shown session; in
    every view its second cell is the time since [conn_time], formatted
    with style 0, and its third cell the time since [cmd_last_visible],
    formatted with style 1.  The idle time is taken from the earlier of the
    two clock readings made for the row and the connection time from the
    later one; the rows read the clock one after the other. *)
Theorem who_row_durations `{Host} (s : CmdWho.self) (w : World)
    (i : nat) (session : Session.t) :
  nth_error (shown w) i = Some session ->
  exists row : list Cell,
    nth_error (rows (table_of s w)) i = Some row
    /\ row = view_row s session (clock w (clock_reads w + 2 * i))
               (clock w (clock_reads w + 2 * i + 1))
    /\ nth_error row 1
       = Some (CStr (time_format
                       (time_sub (clock w (clock_reads w + 2 * i + 1))
                          (Session.conn_time session)) 0))
    /\ nth_error row 2
       = Some (CStr (time_format
                       (time_sub (clock w (clock_reads w + 2 * i))
                          (Session.cmd_last_visible session)) 1)).
Proof.
  intros Hi. destruct (who_table_rows s w) as (_ & Hrows & _).
  eexists. split; [rewrite Hrows; apply roster_nth; exact Hi |].
  split; [reflexivity |]. apply view_row_durations.
Qed.

Lemma who_row_durations_witness :
  exists row : list Cell,
    nth_error (rows (table_of Demo.who_f Demo.world)) 1 = Some row
    /\ nth_error row 1 = Some (CStr "903s")
    /\ nth_error row 2 = Some (CStr "102 sec").
Proof.
  destruct (who_row_durations Demo.who_f Demo.world 1 (Demo.session Demo.bob true None)
              eq_refl) as (row & Hrow & _ & Hon & Hidle).
  exists row. split; [exact Hrow |]. split; [exact Hon | exact Hidle].
Defined.

(** X3: [who] reads the clock exactly twice for each session that is
    logged in and not at all for the others. *)
Theorem who_reads_clock_twice_per_row `{Host} (s : CmdWho.self) (w : World) :
  clock_reads (snd (CmdWho.func s w))
  = clock_reads w + 2 * List.length (filter Session.logged_in (SESSIONS w)).
Proof.
  destruct (func_frame s w) as (_ & _ & _ & Hreads).
  rewrite Hreads, shown_length. reflexivity.
Qed.

(** X4: when no session of the registry is logged in (an empty registry
    included), the table has the header of the view and no row, the clock
    is not read, and the one message sent is the report of that empty
    table. *)
Theorem who_nobody_logged_in `{Host} (s : CmdWho.self) (w : World) :
  Forall (fun o => Session.logged_in o = false) (SESSIONS w) ->
  table_of s w = PrettyTable (view_fields s)
  /\ clock_reads (snd (CmdWho.func s w)) = clock_reads w
  /\ outbox (snd (CmdWho.func s w))
     = outbox w ++ [CmdWho.report (PrettyTable (view_fields s)) (nplayers_logged_in w)].
Proof.
  intros Hout.
  assert (Hshown : shown w = []).
  { apply Permutation_nil. rewrite shown_perm, (filter_none _ _ Hout). reflexivity. }
  destruct (who_table_rows s w) as (Hfields & Hrows & _).
  assert (Htable : table_of s w = PrettyTable (view_fields s)).
  { apply table_eq; [exact Hfields |]. rewrite Hrows, Hshown. reflexivity. }
  split; [exact Htable |]. split.
  - destruct (func_frame s w) as (_ & _ & _ & Hreads).
    rewrite Hreads, Hshown. cbn. lia.
  - rewrite func_outbox, Htable. reflexivity.
Qed.

Lemma who_nobody_logged_in_witness :
  rows (table_of Demo.who_f Scenes.lobby) = []
  /\ field_names (table_of Demo.who_f Scenes.lobby)
     = ["{wCharacter"; "{wOn for"; "{wIdle"; "{wLocation"].
Proof.
  destruct (who_nobody_logged_in Demo.who_f Scenes.lobby) as (Htable & _).
  - repeat constructor.
  - rewrite Htable. split; reflexivity.
Defined.

(** ** What [who] takes from the command instance *)

Lemma who_table_same_view `{Host} (s1 s2 : CmdWho.self) (l : list Session.t) :
  CmdWho.f_in_switches s1 = CmdWho.f_in_switches s2 ->
  CmdWho.show_session_data s1 = CmdWho.show_session_data s2 ->
  CmdWho.who_table s1 l = CmdWho.who_table s2 l.
Proof.
  intros Hf Hs. rewrite !who_table_loop. unfold view_row, view_fields.
  now rewrite Hf, Hs.
Qed.

Lemma func_same_table `{Host} (s1 s2 : CmdWho.self) (w : World) :
  (forall l, CmdWho.who_table s1 l = CmdWho.who_table s2 l) ->
  CmdWho.func s1 w = CmdWho.func s2 w.
Proof.
  intros Heq. unfold CmdWho.func, bind, get_sessions, player_count.
  now rewrite Heq.
Qed.

(** X5: the command instance matters through the view it selects only:
    two callers of [who/f] that both hold one of the two permissions, or
    both hold none, get the same report and leave the same world, whatever
    their accounts and their other switches. *)
Theorem who_depends_on_view_only `{Host} (s1 s2 : CmdWho.self) (w : World) :
  CmdWho.f_in_switches s1 = CmdWho.f_in_switches s2 ->
  CmdWho.show_session_data s1 = CmdWho.show_session_data s2 ->
  CmdWho.func s1 w = CmdWho.func s2 w.
Proof.
  intros Hf Hs. apply func_same_table. intros l. now apply who_table_same_view.
Qed.

Lemma who_depends_on_view_only_witness :
  CmdWho.func Demo.who_f Demo.world
  = CmdWho.func (CmdWho.mk Demo.zed ["x"; "f"; "f"]) Demo.world.
Proof.
  apply who_depends_on_view_only; reflexivity.
Defined.

(** X6: without the [f] switch the permissions of the caller are not
    consulted: every caller gets the minimal view, with the same report. *)
Theorem who_without_f_ignores_caller `{Host} (s1 s2 : CmdWho.self) (w : World) :
  CmdWho.f_in_switches s1 = false ->
  CmdWho.f_in_switches s2 = false ->
  field_names (table_of s1 w) = ["{wCharacter"; "{wOn for"; "{wIdle"]
  /\ CmdWho.func s1 w = CmdWho.func s2 w.
Proof.
  intros H1 H2. split.
  - destruct (who_table_rows s1 w) as (Hfields & _ & _).
    destruct (view_minimal s1 H1) as (_ & Hmin). now rewrite Hfields, Hmin.
  - apply func_same_table. intros l. apply who_table_same_view.
    + now rewrite H1, H2.
    + unfold CmdWho.show_session_data. now rewrite H1, H2.
Qed.

Lemma who_without_f_ignores_caller_witness :
  CmdWho.func Demo.who Demo.world = CmdWho.func Scenes.who_wizard Demo.world.
Proof.
  exact (proj2 (who_without_f_ignores_caller Demo.who Scenes.who_wizard Demo.world
                  eq_refl eq_refl)).
Defined.

(** ** The minimal view does not depend on where a puppet is *)

Lemma minimal_row_same `{Host} (s1 s2 : Session.t) (now1 now2 : Time) :
  same_minimal s1 s2 -> minimal_row s1 now1 now2 = minimal_row s2 now1 now2.
Proof.
  intros (_ & Hconn & Hcmd & _ & Hpup). unfold minimal_row.
  rewrite Hconn, Hcmd. do 3 f_equal.
  destruct (Session.get_puppet s1), (Session.get_puppet s2); cbn in *; congruence.
Qed.

Lemma roster_related `{Host} (R : Session.t -> Session.t -> Prop) mk
    (l l' : list Session.t) (clk clk' : nat -> Time) :
  (forall s1 s2 now1 now2, R s1 s2 -> mk s1 now1 now2 = mk s2 now1 now2) ->
  (forall n, clk n = clk' n) ->
  Forall2 R l l' ->
  forall n, roster mk l clk n = roster mk l' clk' n.
Proof.
  intros Hmk Hclk. induction 1 as [| x x' l l' Hx Hl IH]; intros n; cbn.
  - reflexivity.
  - rewrite (Hmk _ _ _ _ Hx), !Hclk, IH. reflexivity.
Qed.

(** X7: what plain [who] sends is the same in two worlds whose sessions
    agree on the login flag, the two timestamps, the account key and the
    key of the puppet: the location of a puppet, the account name, the
    command count, the protocol and the address do not reach the minimal
    view. *)
Theorem who_minimal_hides_location `{Host} (s : CmdWho.self) (w1 w2 : World) :
  CmdWho.f_in_switches s = false ->
  Forall2 same_minimal (SESSIONS w1) (SESSIONS w2) ->
  nplayers_logged_in w1 = nplayers_logged_in w2 ->
  (forall n, clock w1 n = clock w2 n) ->
  clock_reads w1 = clock_reads w2 ->
  outbox w1 = outbox w2 ->
  outbox (snd (CmdWho.func s w1)) = outbox (snd (CmdWho.func s w2)).
Proof.
  intros Hf Hs Hn Hclk Hreads Hout.
  destruct (view_minimal s Hf) as (Hrow & _).
  rewrite !func_outbox, Hout, Hn. do 3 f_equal.
  destruct (who_table_rows s w1) as (Hf1 & Hr1 & _).
  destruct (who_table_rows s w2) as (Hf2 & Hr2 & _).
  apply table_eq; [congruence |].
  rewrite Hr1, Hr2, Hrow, Hreads.
  apply (roster_related same_minimal); [apply minimal_row_same | assumption |].
  unfold shown. apply filter_Forall2; [now intros a b (Hin & _) |].
  apply sorted_Forall2; [now intros a b (_ & _ & _ & Hk & _) | assumption].
Qed.

Lemma who_minimal_hides_location_witness :
  outbox (snd (CmdWho.func Demo.who Demo.world))
  = outbox (snd (CmdWho.func Demo.who Scenes.moved)).
Proof.
  apply who_minimal_hides_location; try reflexivity.
  repeat constructor.
Defined.

(** ** The order of the rows and the order of the registry *)

Section Order_facts.
Context {A : Type}.
Variable k : A -> string.

Lemma filter_filter_comm (p q : A -> bool) (l : list A) :
  filter p (filter q l) = filter q (filter p l).
Proof.
  induction l as [| x l IH]; cbn; [reflexivity |].
  destruct (p x) eqn:Hp, (q x) eqn:Hq; cbn; rewrite ?Hp, ?Hq, IH; reflexivity.
Qed.

Lemma StronglySorted_perm_eq (l1 : list A) :
  forall l2 : list A,
    StronglySorted (key_le k) l1 -> StronglySorted (key_le k) l2 ->
    Permutation l1 l2 -> NoDup (map k l1) -> l1 = l2.
Proof.
  induction l1 as [| a l1 IH]; intros l2 Hs1 Hs2 Hperm Hnd.
  - now apply Permutation_nil in Hperm.
  - destruct l2 as [| b l2].
    { symmetry in Hperm. now apply Permutation_nil in Hperm. }
    inversion Hs1 as [| ? ? Hs1' Hall1]; subst.
    inversion Hs2 as [| ? ? Hs2' Hall2]; subst.
    inversion Hnd as [| ? ? Hnotin Hnd']; subst.
    assert (Hab : a = b).
    { assert (Hb : In b (a :: l1))
        by (eapply Permutation_in; [symmetry; exact Hperm | now left]).
      destruct Hb as [Hb | Hb]; [exact Hb |].
      assert (Ha : In a (b :: l2)) by (eapply Permutation_in; [exact Hperm | now left]).
      destruct Ha as [Ha | Ha]; [now symmetry |].
      rewrite Forall_forall in Hall1, Hall2.
      pose proof (String.leb_antisym _ _ (Hall1 b Hb) (Hall2 a Ha)) as Hk.
      exfalso. apply Hnotin. rewrite Hk. now apply in_map. }
    subst b. f_equal. apply IH; try assumption.
    now apply Permutation_cons_inv in Hperm.
Qed.

Lemma sorted_of_permutation (l1 l2 : list A) :
  Permutation l1 l2 -> NoDup (map k l1) -> sorted k l1 = sorted k l2.
Proof.
  intros Hperm Hnd. apply StronglySorted_perm_eq.
  - apply sorted_StronglySorted.
  - apply sorted_StronglySorted.
  - now rewrite <- !sorted_perm.
  - eapply Permutation_NoDup; [| exact Hnd]. apply Permutation_map, sorted_perm.
Qed.
End Order_facts.

(** X8: the sessions of one account are listed in the order in which the
    registry gives them: for every account key, the shown sessions with
    that key are the logged-in sessions of the registry with that key, in
    registry order. *)
Theorem who_same_account_in_registry_order `{Host} (w : World) (v : string) :
  filter (fun o => (account_key o =? v)%string) (shown w)
  = filter (fun o => (account_key o =? v)%string)
      (filter Session.logged_in (SESSIONS w)).
Proof.
  unfold shown.
  rewrite filter_filter_comm, sorted_stable. apply filter_filter_comm.
Qed.

(** X9: when no two sessions of the registry belong to accounts with the
    same key, the table does not depend on the order in which the registry
    gives the sessions. *)
Theorem who_order_independent_of_registry_order `{Host}
    (s : CmdWho.self) (w1 w2 : World) :
  Permutation (SESSIONS w1) (SESSIONS w2) ->
  NoDup (map account_key (SESSIONS w1)) ->
  (forall n, clock w1 n = clock w2 n) ->
  clock_reads w1 = clock_reads w2 ->
  shown w1 = shown w2 /\ table_of s w1 = table_of s w2.
Proof.
  intros Hperm Hnd Hclk Hreads.
  assert (Hshown : shown w1 = shown w2).
  { unfold shown. now rewrite (sorted_of_permutation account_key _ _ Hperm Hnd). }
  split; [exact Hshown |].
  destruct (who_table_rows s w1) as (Hf1 & Hr1 & _).
  destruct (who_table_rows s w2) as (Hf2 & Hr2 & _).
  apply table_eq; [congruence |].
  rewrite Hr1, Hr2, Hshown, Hreads.
  apply (roster_related eq); [now intros ? ? ? ? -> | assumption |].
  clear. induction (shown w2); constructor; auto.
Qed.

Lemma who_order_independent_of_registry_order_witness :
  table_of Demo.who_f_admin Demo.world = table_of Demo.who_f_admin Scenes.shuffled.
Proof.
  refine (proj2 (who_order_independent_of_registry_order Demo.who_f_admin
                   Demo.world Scenes.shuffled _ _ _ eq_refl)).
  - apply perm_swap.
  - repeat constructor; cbn; intuition discriminate.
  - reflexivity.
Defined.

(** ** The views compared *)

Lemma roster_moderate `{Host} (l : list Session.t) (clk : nat -> Time) :
  forall n,
    roster moderate_row l clk n
    = map (fun p => snd p ++ [location_cell (fst p)])
        (combine l (roster minimal_row l clk n)).
Proof.
  induction l as [| x l IH]; intros n; cbn; [reflexivity |].
  now rewrite IH.
Qed.

(** X10: for a caller without the permissions, [who/f] is plain [who]
    with one more column: the header gains "{wLocation" and every row gains
    the cropped location of the puppet ("None" without a puppet), the other
    cells being those of the minimal view. *)
Theorem who_f_adds_location_column `{Host} (s0 s1 : CmdWho.self) (w : World) :
  CmdWho.f_in_switches s0 = false ->
  CmdWho.f_in_switches s1 = true ->
  CmdWho.show_session_data s1 = false ->
  field_names (table_of s1 w) = field_names (table_of s0 w) ++ ["{wLocation"]
  /\ rows (table_of s1 w)
     = map (fun p => snd p ++ [location_cell (fst p)])
         (combine (shown w) (rows (table_of s0 w))).
Proof.
  intros H0 H1 Hs.
  destruct (view_minimal s0 H0) as (Hrow0 & Hfields0).
  destruct (view_moderate s1 H1 Hs) as (Hrow1 & Hfields1).
  destruct (who_table_rows s0 w) as (Hf0 & Hr0 & _).
  destruct (who_table_rows s1 w) as (Hf1 & Hr1 & _).
  split.
  - rewrite Hf0, Hf1, Hfields0, Hfields1. reflexivity.
  - rewrite Hr0, Hr1, Hrow0, Hrow1. apply roster_moderate.
Qed.

Lemma who_f_adds_location_column_witness :
  rows (table_of Demo.who_f Demo.world)
  = map (fun p => snd p ++ [location_cell (fst p)])
      (combine (shown Demo.world) (rows (table_of Demo.who Demo.world))).
Proof.
  exact (proj2 (who_f_adds_location_column Demo.who Demo.who_f Demo.world
                  eq_refl eq_refl eq_refl)).
Defined.

(** ** Running [who] again *)

(** X11: a second [who] after a first one finds the registry as it was
    and sends its own report after that of the first; it lists the same
    sessions in the same order, with clock readings that follow those of
    the first run. *)
Theorem who_twice `{Host} (s1 s2 : CmdWho.self) (w : World) :
  outbox (snd (CmdWho.func s2 (snd (CmdWho.func s1 w))))
  = outbox w ++ [CmdWho.report (table_of s1 w) (nplayers_logged_in w);
                 CmdWho.report (table_of s2 (snd (CmdWho.func s1 w)))
                   (nplayers_logged_in w)]
  /\ shown (snd (CmdWho.func s1 w)) = shown w
  /\ rows (table_of s2 (snd (CmdWho.func s1 w)))
     = roster (view_row s2) (shown w) (clock w)
         (clock_reads w + 2 * List.length (shown w)).
Proof.
  destruct (func_frame s1 w) as (Hsess & Hn & Hclk & Hreads).
  assert (Hshown : shown (snd (CmdWho.func s1 w)) = shown w)
    by (unfold shown; now rewrite Hsess).
  split; [| split].
  - rewrite (func_outbox s2), (func_outbox s1), Hn, <- app_assoc. reflexivity.
  - exact Hshown.
  - destruct (who_table_rows s2 (snd (CmdWho.func s1 w))) as (_ & Hrows & _).
    rewrite Hrows, Hshown, Hclk, Hreads. reflexivity.
Qed.

(** ** Sessions that are not logged in *)

Section Filter_sorted_facts.
Context {A : Type}.
Variable k : A -> string.

Lemma leb_ltb_false (a b : string) :
  (a <=? b)%string = true -> (b <? a)%string = false.
Proof.
  unfold String.leb, String.ltb. rewrite (String.compare_antisym b a).
  destruct (String.compare a b); cbn; congruence.
Qed.

Lemma insert_by_front (x : A) (l : list A) :
  Forall (key_le k x) l -> insert_by k x l = x :: l.
Proof.
  intros Hall. destruct l as [| y l]; cbn; [reflexivity |].
  inversion Hall as [| ? ? Hy _]; subst.
  now rewrite (leb_ltb_false _ _ Hy).
Qed.

Lemma insert_by_filter (p : A -> bool) (x : A) (l : list A) :
  StronglySorted (key_le k) l ->
  filter p (insert_by k x l)
  = if p x then insert_by k x (filter p l) else filter p l.
Proof.
  induction 1 as [| y l Hs IH Hall]; cbn.
  - now destruct (p x).
  - destruct (k y <? k x)%string eqn:E; cbn.
    + rewrite IH. destruct (p y), (p x); cbn; rewrite ?E; reflexivity.
    + destruct (p x); [| reflexivity].
      symmetry. apply insert_by_front.
      assert (Hxy : key_le k x y) by (apply ltb_false_leb; exact E).
      assert (Hx : Forall (key_le k x) (y :: l)).
      { constructor; [exact Hxy |].
        rewrite Forall_forall in *. intros z Hz.
        eapply key_le_trans; [exact Hxy | now apply Hall]. }
      rewrite Forall_forall in *. intros z Hz. apply Hx.
      change (In z (filter p (y :: l))) in Hz. apply filter_In in Hz. tauto.
Qed.

Lemma sorted_filter (p : A -> bool) (l : list A) :
  filter p (sorted k l) = sorted k (filter p l).
Proof.
  unfold sorted. induction l as [| x l IH]; cbn [fold_right filter]; [reflexivity |].
  rewrite insert_by_filter by apply sorted_StronglySorted.
  fold (sorted k l). unfold sorted. rewrite IH.
  now destruct (p x).
Qed.
End Filter_sorted_facts.

(** X12: a session that is not logged in leaves no trace: the table is
    that of the logged-in sessions alone, sorted by account key, so two
    registries with the same logged-in sessions in the same order give the
    same table and the same number of clock readings. *)
Theorem who_ignores_logged_out_sessions `{Host} (s : CmdWho.self) (w1 w2 : World) :
  filter Session.logged_in (SESSIONS w1) = filter Session.logged_in (SESSIONS w2) ->
  (forall n, clock w1 n = clock w2 n) ->
  clock_reads w1 = clock_reads w2 ->
  shown w1 = sorted account_key (filter Session.logged_in (SESSIONS w1))
  /\ table_of s w1 = table_of s w2
  /\ clock_reads (snd (CmdWho.func s w1)) = clock_reads (snd (CmdWho.func s w2)).
Proof.
  intros Hin Hclk Hreads.
  assert (Hshown : forall w, shown w = sorted account_key (filter Session.logged_in (SESSIONS w)))
    by (intros w; apply sorted_filter).
  assert (Heq : shown w1 = shown w2) by (rewrite !Hshown, Hin; reflexivity).
  split; [apply Hshown |]. split.
  - destruct (who_table_rows s w1) as (Hf1 & Hr1 & _).
    destruct (who_table_rows s w2) as (Hf2 & Hr2 & _).
    apply table_eq; [congruence |].
    rewrite Hr1, Hr2, Heq, Hreads.
    apply (roster_related eq); [now intros ? ? ? ? -> | assumption |].
    clear. induction (shown w2); constructor; auto.
  - destruct (func_frame s w1) as (_ & _ & _ & H1).
    destruct (func_frame s w2) as (_ & _ & _ & H2).
    rewrite H1, H2, Heq, Hreads. reflexivity.
Qed.

Lemma who_ignores_logged_out_sessions_witness :
  table_of Demo.who_f_admin Demo.world = table_of Demo.who_f_admin Scenes.online_only.
Proof.
  refine (proj1 (proj2 (who_ignores_logged_out_sessions Demo.who_f_admin
                          Demo.world Scenes.online_only eq_refl _ eq_refl))).
  reflexivity.
Defined.
